(** * lit-builder: the template builder of [src/builder.ts]

    A shallow embedding of [sanitize], [_build] and [build], and the
    properties of the pair (strings, values) that [build] hands to the host
    engine's [html] tag function.

    Conventions of the embedding.
    - A JavaScript string is a [string]: a sequence of 8-bit characters.  The
      two regular expressions of the source work character by character, so
      this is exact on ASCII input.
    - An object used as a record ([Record<string, T>]) is the list of its
      entries in the order in which [for (const key in obj)] visits them.
    - The accumulators [strings] and [values], which the source mutates in
      place, are threaded through as one value of type [Acc].
    - A JavaScript exception is the [Throw] case of [Completion].
    - The spec calls the field [name] of the source [tag]. *)

From Stdlib Require Import ZArith Ascii String.
From stdpp Require Import base option list strings.

Open Scope string_scope.
Open Scope list_scope.

(** ** Values and the input tree *)

(** What a [BuildElement | TemplateResult | string] can be, and the values the
    builder carries without looking into them.  An object is the record of the
    fields the builder reads; a field that the object does not have is
    [None].  [o_strings] and [o_values] are the two fields of a
    [TemplateResult]. *)
Local Unset Elimination Schemes.

(** The value of an attribute entry that is not [undefined].  The interface
    declares a string; the source calls [toString] on the value, which the
    other falsy values, [false] and [0], have as well, so booleans and the
    number [0] are admitted next to strings. *)
Inductive AttrValue : Type :=
  | AString (s : string)
  | ABool (b : bool)
  | AZero.

Inductive JsValue : Type :=
  | JUndefined
  | JNull
  | JBool (b : bool)
  | JNumber (n : Z)
  | JString (s : string)
  | JFunction (id : nat)
  | JDirective (id : nat)
  | JArray (items : list JsValue)
  | JObject (o : BuildObject)
with BuildObject : Type :=
  | MkObject
      (o_strings : option JsValue)
      (o_values : option JsValue)
      (o_name : option string)
      (o_attributes : option (list (string * option AttrValue)))
      (o_properties : option (list (string * JsValue)))
      (o_events : option (list (string * JsValue)))
      (o_directives : option (list JsValue))
      (o_children : option (list Element))
with Element : Type :=
  | EString (s : string)
  | EObject (o : BuildObject).

Local Set Elimination Schemes.

(** A [BuildElement] written with the fields of the interface only. *)
Definition BuildElement
    (name : option string)
    (attributes : option (list (string * option AttrValue)))
    (properties events : option (list (string * JsValue)))
    (directives : option (list JsValue))
    (children : option (list Element)) : Element :=
  EObject (MkObject None None name attributes properties events directives children).

(** A [TemplateResult], as the host engine's [html] makes it. *)
Definition TemplateResult (strs : list string) (vals : list JsValue) : BuildObject :=
  MkObject (Some (JArray (JString <$> strs))) (Some (JArray vals))
           None None None None None None.

(** ** Exceptions *)

Inductive JsError : Type :=
  | TypeError.

Inductive Completion (A : Type) : Type :=
  | Normal (a : A)
  | Throw (e : JsError).
Arguments Normal {A} a.
Arguments Throw {A} e.

#[global] Instance Completion_ret : MRet Completion := λ A a, Normal a.
#[global] Instance Completion_bind : MBind Completion := λ A B f m,
  match m with
  | Normal a => f a
  | Throw e => Throw e
  end.

(** ** The accumulators *)

Record Acc : Type := MkAcc {
  strings : list string;
  values : list JsValue
}.

(** [strings[strings.length - 1] += text].  On an empty array the source
    writes the property [-1], which is no element of the array: the elements
    stay as they are. *)
Definition append_open (text : string) (a : Acc) : Acc :=
  {| strings := alter (λ s, s +:+ text) (length (strings a) - 1) (strings a);
     values := values a |}.

(** [values.push(v); strings.push('')]. *)
Definition push_value (v : JsValue) (a : Acc) : Acc :=
  {| strings := strings a ++ [""];
     values := values a ++ [v] |}.

(** ** sanitize *)

(** The character class [a-zA-Z0-9\-_]. *)
Definition is_safe_char (c : ascii) : bool :=
  let n := nat_of_ascii c in
  (((97 <=? n) && (n <=? 122)) || ((65 <=? n) && (n <=? 90))
   || ((48 <=? n) && (n <=? 57)) || (n =? 45) || (n =? 95))%nat.

(** [str.replace(/[^a-zA-Z0-9\-_]/g, '')]. *)
Fixpoint sanitize (str : string) : string :=
  match str with
  | EmptyString => EmptyString
  | String c rest =>
      if is_safe_char c then String c (sanitize rest) else sanitize rest
  end.

(** ** Attribute values *)

(** [s.replace(/c/g, by)] for a one-character pattern. *)
Fixpoint replace_all (c : ascii) (by_ : string) (s : string) : string :=
  match s with
  | EmptyString => EmptyString
  | String x rest =>
      if Ascii.eqb x c then by_ +:+ replace_all c by_ rest
      else String x (replace_all c by_ rest)
  end.

Definition dquote : ascii := "034"%char.
Definition dq : string := String dquote EmptyString.

(** The text of a defined attribute value: a string is its own text,
    [true.toString()] is ['true'], [false.toString()] is ['false'] and
    [(0).toString()] is ['0']. *)
Definition attribute_text (v : AttrValue) : string :=
  match v with
  | AString s => s
  | ABool true => "true"
  | ABool false => "false"
  | AZero => "0"
  end.

(** [v.toString()] on an attribute value; on [undefined] it throws. *)
Definition toString (v : option AttrValue) : Completion string :=
  match v with
  | Some x => Normal (attribute_text x)
  | None => Throw TypeError
  end.

(** The four [replace] calls, in the order of the source. *)
Definition escape_attribute (s : string) : string :=
  replace_all dquote "&quot;"
    (replace_all "&" "&amp;"
      (replace_all ">" "&gt;"
        (replace_all "<" "&lt;" s))).

Definition is_undefined (v : JsValue) : bool :=
  match v with
  | JUndefined => true
  | _ => false
  end.

(** ** The loops of [_build] over one element's entries *)

(** [for (const key in element.attributes)]. *)
Fixpoint build_attributes (entries : list (string * option AttrValue)) (a : Acc)
  : Completion Acc :=
  match entries with
  | [] => mret a
  | (key, v) :: rest =>
      match v with
      | None => build_attributes rest a
      | Some _ =>
          s ← toString v;
          let value := escape_attribute s in
          build_attributes rest
            (append_open (" " +:+ sanitize key +:+ "=" +:+ dq +:+ value +:+ dq) a)
      end
  end.

(** [for (const key in element.properties)] and
    [for (const key in element.events)]: they differ in the sigil only. *)
Fixpoint build_bindings (sigil : string) (entries : list (string * JsValue))
    (a : Acc) : Acc :=
  match entries with
  | [] => a
  | (key, value) :: rest =>
      if is_undefined value then build_bindings sigil rest a
      else build_bindings sigil rest
             (push_value value (append_open (" " +:+ sigil +:+ sanitize key +:+ "=") a))
  end.

Definition build_properties := build_bindings ".".
Definition build_events := build_bindings "@".

(** [for (const directive of element.directives)]. *)
Fixpoint build_directives (directives : list JsValue) (a : Acc) : Acc :=
  match directives with
  | [] => a
  | directive :: rest =>
      build_directives rest (push_value directive (append_open " " a))
  end.

(** [if (element.f) { loop }]: an absent field runs no loop. *)
Definition when_present {A B : Type} (field : option A) (loop : A → B → B) (b : B) : B :=
  match field with
  | Some x => loop x b
  | None => b
  end.

Definition when_presentM {A B : Type} (field : option A)
    (loop : A → B → Completion B) (b : B) : Completion B :=
  match field with
  | Some x => loop x b
  | None => mret b
  end.

(** ** _build and build *)

(** [!element.name]: the name is absent or the empty string. *)
Definition no_name (name : option string) : bool :=
  match name with
  | None => true
  | Some n => if decide (n = "") then true else false
  end.

(** ['strings' in element && 'values' in element]. *)
Definition is_template (o : BuildObject) : bool :=
  match o with
  | MkObject (Some _) (Some _) _ _ _ _ _ _ => true
  | _ => false
  end.

Fixpoint _build (element : Element) (a : Acc) {struct element} : Completion Acc :=
  match element with
  | EString text => mret (append_open text a)
  | EObject o =>
      if is_template o then mret (push_value (JObject o) a)
      else
        match o with
        | MkObject _ _ name attributes properties events directives children =>
            let build_children :=
              fix build_children (cs : list Element) (a : Acc) : Completion Acc :=
                match cs with
                | [] => mret a
                | child :: rest => a' ← _build child a; build_children rest a'
                end in
            if no_name name then when_presentM children build_children a
            else
              let tagName := sanitize (default "" name) in
              let a := append_open ("<" +:+ tagName) a in
              a ← when_presentM attributes build_attributes a;
              let a := when_present properties build_properties a in
              let a := when_present events build_events a in
              let a := when_present directives build_directives a in
              let a := append_open ">" a in
              a ← when_presentM children build_children a;
              mret (append_open ("</" +:+ tagName +:+ ">") a)
        end
  end.

(** [for (const child of cs) _build(child, strings, values)]. *)
Fixpoint build_all (cs : list Element) (a : Acc) : Completion Acc :=
  match cs with
  | [] => mret a
  | child :: rest => a' ← _build child a; build_all rest a'
  end.

(** The argument of [build]: [BuildElement | BuildElement[]]. *)
Inductive BuildInput : Type :=
  | Single (element : Element)
  | Many (elements : list Element).

(** [build] up to its last line: the accumulators that are handed to
    [html(strings, ...values)]. *)
Definition build (elements : BuildInput) : Completion Acc :=
  let a := {| strings := [""]; values := [] |} in
  match elements with
  | Many es => build_all es a
  | Single e => _build e a
  end.

(** ** Predicates and helper functions of the statements *)

(** An element written with a name and children only. *)
Definition text_only (name : string) (children : list Element) : Element :=
  BuildElement (Some name) None None None None (Some children).

(** The binding contract of the host engine: one fragment more than there are
    values. *)
Definition balanced (a : Acc) : Prop :=
  length (strings a) = length (values a) + 1.

(** What holds of one call [_build(element, strings, values)]: it returns, and
    balanced accumulators stay balanced. *)
Definition returns_balanced (element : Element) : Prop :=
  ∀ a, ∃ a', _build element a = Normal a' ∧ (balanced a → balanced a').

(** [haystack.includes(needle)]. *)
Fixpoint contains (needle haystack : string) : bool :=
  String.prefix needle haystack
  || match haystack with
     | EmptyString => false
     | String _ rest => contains needle rest
     end.

(** The character [c] occurs in [s]. *)
Fixpoint occurs (c : ascii) (s : string) : bool :=
  match s with
  | EmptyString => false
  | String x rest => Ascii.eqb x c || occurs c rest
  end.

(** No entry of the field has a value other than [undefined]: the field is
    absent, empty, or holds undefined entries only. *)
Definition no_defined_entry (field : option (list (string * JsValue))) : bool :=
  forallb (λ entry, is_undefined entry.2) (default [] field).

(** The field is absent or the empty array. *)
Definition no_item {A : Type} (field : option (list A)) : bool :=
  match default [] field with
  | [] => true
  | _ :: _ => false
  end.

(** An element that holds, at any depth, no precompiled template, no
    directive, and no property or event entry whose value is not
    [undefined]. *)
Fixpoint static (element : Element) : bool :=
  match element with
  | EString _ => true
  | EObject o =>
      negb (is_template o)
      && match o with
         | MkObject _ _ _ _ properties events directives children =>
             no_defined_entry properties && no_defined_entry events
             && no_item directives
             && match children with
                | Some cs => forallb static cs
                | None => true
                end
         end
  end.

(** The values of the entries that are not [undefined], in entry order. *)
Definition defined_values (entries : list (string * JsValue)) : list JsValue :=
  filter (λ v, is_undefined v = false) entries.*2.

(** The values that the opening tag of an element pushes. *)
Definition opening_values (properties events : option (list (string * JsValue)))
    (directives : option (list JsValue)) : list JsValue :=
  defined_values (default [] properties)
  ++ defined_values (default [] events)
  ++ default [] directives.

(** The entries that are not [undefined]. *)
Definition defined_attributes (entries : list (string * option AttrValue))
  : list (string * option AttrValue) :=
  filter (λ entry, is_Some entry.2) entries.

Definition defined_entries (entries : list (string * JsValue))
  : list (string * JsValue) :=
  filter (λ entry, is_undefined entry.2 = false) entries.

(** ** Inputs of the documented scenarios *)

(** [{name: 'a', attributes: {href: v}}], where [v] is the four characters
    less-than, greater-than, ampersand, double quote. *)
Definition href_example : Element :=
  BuildElement (Some "a") (Some [("href", Some (AString ("<>&" +:+ dq)))])
    None None None None.

(** [{name: 'ul', children: [{name: 'li', children: ['A']}, 'B',
                             {name: 'li', children: ['C']}]}]. *)
Definition ul_example : Element :=
  text_only "ul" [text_only "li" [EString "A"]; EString "B";
                  text_only "li" [EString "C"]].

(** [{name: 'div', properties: {x: 1, y: 2}, events: {click: fn}}], with
    [JFunction 0] for [fn]. *)
Definition div_example : Element :=
  BuildElement (Some "div") None
    (Some [("x", JNumber 1); ("y", JNumber 2)])
    (Some [("click", JFunction 0)]) None None.

(** [{name: 'div', attributes: {a: '1', b: undefined}}]. *)
Definition undefined_example : Element :=
  BuildElement (Some "div") (Some [("a", Some (AString "1")); ("b", None)])
    None None None None.

(** [{name: 'div', attributes: {e: '', z: 0, f: false},
      properties: {s: '', z: 0, f: false, u: undefined},
      events: {click: undefined}}]. *)
Definition falsy_example : Element :=
  BuildElement (Some "div")
    (Some [("e", Some (AString "")); ("z", Some AZero); ("f", Some (ABool false))])
    (Some [("s", JString ""); ("z", JNumber 0); ("f", JBool false); ("u", JUndefined)])
    (Some [("click", JUndefined)]) None None.

(** [{name: 'div', events: {a: '', b: 0, c: false, d: undefined}}]. *)
Definition falsy_events_example : Element :=
  BuildElement (Some "div") None None
    (Some [("a", JString ""); ("b", JNumber 0); ("c", JBool false); ("d", JUndefined)])
    None None.

(** [{name: 'p', properties: {}, events: {click: undefined}, directives: [],
      children: ['t']}]. *)
Definition empty_fields_example : Element :=
  BuildElement (Some "p") None (Some []) (Some [("click", JUndefined)])
    (Some []) (Some [EString "t"]).

(** [{name: 'span', children: ['x']}]. *)
Definition span_example : Element := text_only "span" [EString "x"].

(** [{attributes: {class: 'c'}, properties: {x: 1}, events: {click: fn},
      directives: [d], children: ['t']}]: no name. *)
Definition nameless_example : Element :=
  BuildElement None (Some [("class", Some (AString "c"))]) (Some [("x", JNumber 1)])
    (Some [("click", JFunction 0)]) (Some [JDirective 0]) (Some [EString "t"]).

(** ** Further notions used in the statements *)

(** The accumulators [build] starts from: [strings = ['']], [values = []]. *)
Definition fresh : Acc := {| strings := [""]; values := [] |}.

(** The accumulators [a], continued by what a compilation that started from
    [fresh] left in [b]: the first fragment of [b] goes to the open fragment of
    [a], the other fragments and the values of [b] follow. *)
Definition merge (a b : Acc) : Acc :=
  match strings b with
  | [] => a
  | first :: rest =>
      {| strings := strings (append_open first a) ++ rest;
         values := values a ++ values b |}
  end.

(** The text that the loop over the attributes adds to the open fragment. *)
Fixpoint attributes_text (entries : list (string * option AttrValue)) : string :=
  match entries with
  | [] => ""
  | (key, None) :: rest => attributes_text rest
  | (key, Some v) :: rest =>
      (" " +:+ sanitize key +:+ "=" +:+ dq
       +:+ escape_attribute (attribute_text v) +:+ dq)
      +:+ attributes_text rest
  end.

(** Every character of [s] satisfies [p]. *)
Fixpoint all_chars (p : ascii → bool) (s : string) : bool :=
  match s with
  | EmptyString => true
  | String c rest => p c && all_chars p rest
  end.

(** The first fragment begins with [text]. *)
Definition starts_with (text : string) (a : Acc) : Prop :=
  ∃ body rest, strings a = (text +:+ body) :: rest.

(** A field that holds an empty object or array, taken away. *)
Definition drop_empty {A : Type} (field : option (list A)) : option (list A) :=
  match field with
  | Some [] => None
  | _ => field
  end.


(** The values an element pushes, in document order: a template is pushed
    itself; a named element pushes the values of its opening tag, then those of
    its children; a nameless element those of its children only. *)
Fixpoint pushed_values (element : Element) : list JsValue :=
  match element with
  | EString _ => []
  | EObject o =>
      if is_template o then [JObject o]
      else
        match o with
        | MkObject _ _ name _ properties events directives children =>
            let below :=
              match children with
              | Some cs => flat_map pushed_values cs
              | None => []
              end in
            if no_name name then below
            else opening_values properties events directives ++ below
        end
  end.

(** One call on accumulators [merge a b] does to [b] what it does to [b]
    alone, and leaves [a] as it is. *)
Definition frames (element : Element) : Prop :=
  ∀ a b, strings b ≠ [] →
    ∃ b', _build element b = Normal b'
          ∧ strings b' ≠ []
          ∧ _build element (merge a b) = Normal (merge a b').

(** One call appends [pushed_values element] to the values. *)
Definition pushes (element : Element) : Prop :=
  ∀ a, ∃ a', _build element a = Normal a'
             ∧ values a' = values a ++ pushed_values element.

(** ** Induction on the input tree *)

Section Element_induction.
Variable P : Element → Prop.
Hypothesis P_string : ∀ s, P (EString s).
Hypothesis P_object : ∀ ostr ovals name attrs props evs dirs children,
  from_option (Forall P) True children →
  P (EObject (MkObject ostr ovals name attrs props evs dirs children)).

Fixpoint Element_ind (e : Element) : P e :=
  match e with
  | EString s => P_string s
  | EObject (MkObject ostr ovals name attrs props evs dirs children) =>
      P_object ostr ovals name attrs props evs dirs children
        (match children as c return from_option (Forall P) True c with
         | Some cs =>
             (fix all (l : list Element) : Forall P l :=
                match l with
                | [] => List.Forall_nil P
                | x :: l' => List.Forall_cons P x l' (Element_ind x) (all l')
                end) cs
         | None => I
         end)
  end.
End Element_induction.

(** ** Examples from the repository's documentation, run through the model *)

Example build_hello :
  build (Single (text_only "div" [EString "Hello, World!"]))
  = Normal {| strings := ["<div>Hello, World!</div>"]; values := [] |}.
Proof. reflexivity. Qed.

Example build_two_paragraphs :
  build (Many [text_only "p" [EString "First paragraph"];
               text_only "p" [EString "Second paragraph"]])
  = Normal {| strings := ["<p>First paragraph</p><p>Second paragraph</p>"];
              values := [] |}.
Proof. reflexivity. Qed.

(** ** Equations of the definitions *)

Lemma _build_object o a :
  _build (EObject o) a =
    if is_template o then Normal (push_value (JObject o) a)
    else
      match o with
      | MkObject _ _ name attributes properties events directives children =>
          if no_name name then when_presentM children build_all a
          else
            let tagName := sanitize (default "" name) in
            a1 ← when_presentM attributes build_attributes
                   (append_open ("<" +:+ tagName) a);
            a2 ← when_presentM children build_all
                   (append_open ">"
                      (when_present directives build_directives
                         (when_present events build_events
                            (when_present properties build_properties a1))));
            Normal (append_open ("</" +:+ tagName +:+ ">") a2)
      end.
Proof. destruct o; reflexivity. Qed.

Lemma bind_Normal {A B : Type} (f : A → Completion B) (x : A) :
  Normal x ≫= f = f x.
Proof. reflexivity. Qed.

Lemma bind_ret {A : Type} (m : Completion A) : m ≫= Normal = m.
Proof. by destruct m. Qed.

Lemma build_all_app cs1 cs2 a :
  build_all (cs1 ++ cs2) a = build_all cs1 a ≫= build_all cs2.
Proof.
  revert a. induction cs1 as [|c cs1 IH]; intros a; simpl; [done|].
  destruct (_build c a) as [a'|err]; simpl; [apply IH | done].
Qed.

(** ** The accumulators: lengths and the open fragment *)

Lemma length_strings_append_open text a :
  length (strings (append_open text a)) = length (strings a).
Proof. apply length_alter. Qed.

Lemma values_append_open text a : values (append_open text a) = values a.
Proof. reflexivity. Qed.

Lemma append_open_snoc text ss open vs :
  append_open text {| strings := ss ++ [open]; values := vs |}
  = {| strings := ss ++ [open +:+ text]; values := vs |}.
Proof.
  unfold append_open; simpl. f_equal.
  rewrite length_app; simpl.
  replace (length ss + 1 - 1) with (length ss + 0) by lia.
  by rewrite alter_app_r.
Qed.

Lemma push_value_snoc v ss vs :
  push_value v {| strings := ss; values := vs |}
  = {| strings := ss ++ [""]; values := vs ++ [v] |}.
Proof. reflexivity. Qed.

Lemma balanced_append_open text a : balanced a → balanced (append_open text a).
Proof. unfold balanced. by rewrite length_strings_append_open. Qed.

Lemma balanced_push_value v a : balanced a → balanced (push_value v a).
Proof. unfold balanced; simpl. rewrite !length_app; simpl. lia. Qed.

Create HintDb balanced.
#[local] Hint Resolve balanced_append_open balanced_push_value : balanced.

(** ** The loops return, and keep the accumulators balanced *)

Lemma build_attributes_Normal entries a :
  ∃ a', build_attributes entries a = Normal a'
        ∧ values a' = values a
        ∧ length (strings a') = length (strings a).
Proof.
  revert a. induction entries as [|[key [s|]] rest IH]; intros a; simpl.
  - by exists a.
  - destruct (IH (append_open
                    (" " +:+ sanitize key +:+ "=" +:+ dq
                     +:+ escape_attribute (attribute_text s) +:+ dq) a))
      as (a' & -> & Hv & Hl).
    exists a'. rewrite Hv, Hl, length_strings_append_open. done.
  - apply IH.
Qed.

Lemma balanced_build_bindings sigil entries a :
  balanced a → balanced (build_bindings sigil entries a).
Proof.
  revert a. induction entries as [|[key v] rest IH]; intros a Ha; simpl; [done|].
  destruct (is_undefined v); auto with balanced.
Qed.

Lemma balanced_build_directives ds a :
  balanced a → balanced (build_directives ds a).
Proof.
  revert a. induction ds as [|d rest IH]; intros a Ha; simpl; auto with balanced.
Qed.

Lemma balanced_when_present {A : Type} (field : option A) loop a :
  (∀ x b, balanced b → balanced (loop x b)) →
  balanced a → balanced (when_present field loop a).
Proof. destruct field; simpl; auto. Qed.

Lemma build_all_returns_balanced cs a :
  Forall returns_balanced cs →
  ∃ a', build_all cs a = Normal a' ∧ (balanced a → balanced a').
Proof.
  intros Hcs. revert a.
  induction Hcs as [|c cs Hc _ IH]; intros a; simpl.
  - by exists a.
  - destruct (Hc a) as (a1 & -> & H1). simpl.
    destruct (IH a1) as (a2 & -> & H2).
    exists a2. auto.
Qed.

Lemma children_return_balanced children a :
  from_option (Forall returns_balanced) True children →
  ∃ a', when_presentM children build_all a = Normal a'
        ∧ (balanced a → balanced a').
Proof.
  destruct children as [cs|]; simpl.
  - intros Hcs. by apply build_all_returns_balanced.
  - intros _. by exists a.
Qed.

Lemma _build_returns_balanced element : returns_balanced element.
Proof.
  induction element as [s | ostr ovals name attrs props evs dirs children IH]
    using Element_ind; intros a.
  - exists (append_open s a). split; [done | auto with balanced].
  - rewrite _build_object.
    destruct (is_template _).
    { eexists; split; [done | auto with balanced]. }
    destruct (no_name name).
    { by apply children_return_balanced. }
    cbv zeta.
    set (a0 := append_open _ a).
    assert (∃ a1, when_presentM attrs build_attributes a0 = Normal a1
                  ∧ (balanced a → balanced a1)) as (a1 & -> & H1).
    { destruct attrs as [entries|]; simpl.
      - destruct (build_attributes_Normal entries a0) as (a1 & -> & Hv & Hl).
        exists a1. split; [done|]. unfold balanced. rewrite Hv, Hl.
        subst a0. by rewrite length_strings_append_open. 
      - exists a0. split; [done|]. subst a0. auto with balanced. }
    rewrite bind_Normal.
    match goal with
    | |- ∃ _, when_presentM children build_all ?b ≫= _ = _ ∧ _ => set (a2 := b)
    end.
    destruct (children_return_balanced children a2 IH) as (a3 & -> & H3).
    rewrite bind_Normal. eexists; split; [done|].
    intros Ha. apply balanced_append_open, H3. subst a2.
    apply balanced_append_open.
    apply balanced_when_present; [apply balanced_build_directives|].
    apply balanced_when_present; [apply balanced_build_bindings|].
    apply balanced_when_present; [apply balanced_build_bindings|].
    auto.
Qed.

(** C1.  For every input of [build], a single element or a sequence of
    elements of any shape and depth, [build] returns, and the fragments it
    hands to the host engine are one more than the values:
    [strings.length = values.length + 1]. *)
Theorem build_length_invariant (elements : BuildInput) :
  ∃ a, build elements = Normal a
       ∧ length (strings a) = length (values a) + 1.
Proof.
  assert (balanced {| strings := [""]; values := [] |}) as H0 by reflexivity.
  destruct elements as [e | es]; unfold build.
  - destruct (_build_returns_balanced e {| strings := [""]; values := [] |})
      as (a & Ha & Hb).
    exists a. split; [done | by apply Hb].
  - destruct (build_all_returns_balanced es {| strings := [""]; values := [] |})
      as (a & Ha & Hb).
    + apply Forall_forall. intros e _. apply _build_returns_balanced.
    + exists a. split; [done | by apply Hb].
Qed.

Lemma _build_Normal element a : ∃ a', _build element a = Normal a'.
Proof. destruct (_build_returns_balanced element a) as (a' & H & _). eauto. Qed.

Lemma build_all_Normal cs a : ∃ a', build_all cs a = Normal a'.
Proof.
  destruct (build_all_returns_balanced cs a) as (a' & H & _); [|eauto].
  apply Forall_forall. intros e _. apply _build_returns_balanced.
Qed.

(** ** sanitize and the escaping of attribute values *)

(** [sanitize(sanitize(s)) === sanitize(s)]. *)
Lemma sanitize_idempotent str :
  sanitize (sanitize str) = sanitize str.
Proof.
  induction str as [|c rest IH]; simpl; [done|].
  destruct (is_safe_char c) eqn:Hc; simpl; [|done].
  by rewrite Hc, IH.
Qed.

Lemma occurs_append c s t : occurs c (s +:+ t) = occurs c s || occurs c t.
Proof.
  induction s as [|x s IH]; simpl; [done|].
  by rewrite IH, orb_assoc.
Qed.

Lemma occurs_replace_all_same c r s :
  occurs c r = false → occurs c (replace_all c r s) = false.
Proof.
  intros Hr. induction s as [|x s IH]; simpl; [done|].
  destruct (Ascii.eqb x c) eqn:Hx; simpl.
  - by rewrite occurs_append, Hr, IH.
  - by rewrite Hx, IH.
Qed.

Lemma occurs_replace_all_other c d r s :
  occurs c r = false → occurs c s = false → occurs c (replace_all d r s) = false.
Proof.
  intros Hr. induction s as [|x s IH]; simpl; [done|].
  intros [Hx Hs]%orb_false_iff.
  destruct (Ascii.eqb x d); simpl.
  - by rewrite occurs_append, Hr, IH.
  - by rewrite Hx, IH.
Qed.

(** Whatever the order of the replacements, no raw less-than, greater-than or
    double quote is left in an escaped attribute value. *)
Lemma escape_attribute_no_raw s :
  occurs "<" (escape_attribute s) = false
  ∧ occurs ">" (escape_attribute s) = false
  ∧ occurs dquote (escape_attribute s) = false.
Proof.
  unfold escape_attribute. repeat split.
  - do 3 (apply occurs_replace_all_other; [done|]).
    by apply occurs_replace_all_same.
  - do 2 (apply occurs_replace_all_other; [done|]).
    by apply occurs_replace_all_same.
  - by apply occurs_replace_all_same.
Qed.

(** C2.  On [href_example] the source replaces the less-than and
    greater-than signs before it replaces the ampersand, so the ampersands of
    [&lt;] and [&gt;] are escaped a second time: the only fragment is
    [<a href="&amp;lt;&amp;gt;&amp;&quot;"></a>], and the text
    [href="&lt;&gt;&amp;&quot;"] occurs in no fragment. *)
Theorem href_example_escaped_twice :
  escape_attribute "<" = "&amp;lt;"
  ∧ escape_attribute ">" = "&amp;gt;"
  ∧ ∃ a, build (Single href_example) = Normal a
         ∧ strings a
           = ["<a href=" +:+ dq +:+ "&amp;lt;&amp;gt;&amp;&quot;" +:+ dq +:+ "></a>"]
         ∧ values a = []
         ∧ forallb (λ fragment,
              negb (contains ("href=" +:+ dq +:+ "&lt;&gt;&amp;&quot;" +:+ dq) fragment))
             (strings a) = true.
Proof. split; [done|]. split; [done|]. eexists. split; [reflexivity|]. done. Qed.

(** ** Text children *)

(** C3, as the spec states it: the three fragments [<ul><li>], [</li>B<li>],
    [</li></ul>] are not what [build] returns; it returns one fragment, and
    the text of that fragment is not the three joined either. *)
Lemma ul_example_not_three_fragments :
  build (Single ul_example)
  ≠ Normal {| strings := ["<ul><li>"; "</li>B<li>"; "</li></ul>"]; values := [] |}
  ∧ ∃ a, build (Single ul_example) = Normal a
         ∧ length (strings a) = 1
         ∧ String.concat "" (strings a)
           ≠ String.concat "" ["<ul><li>"; "</li>B<li>"; "</li></ul>"].
Proof.
  split; [discriminate|].
  eexists. split; [reflexivity|]. split; [done | discriminate].
Qed.

(** C3, amended.  The input compiles to the single fragment
    [<ul><li>A</li>B<li>C</li></ul>] and no value: text is appended to the
    open fragment, and only a pushed value opens a new one. *)
Theorem ul_example_one_fragment :
  build (Single ul_example)
  = Normal {| strings := ["<ul><li>A</li>B<li>C</li></ul>"]; values := [] |}.
Proof. reflexivity. Qed.

(** ** Properties, events and directives *)

Lemma build_bindings_values sigil entries a :
  values (build_bindings sigil entries a) = values a ++ defined_values entries
  ∧ length (strings (build_bindings sigil entries a))
    = length (strings a) + length (defined_values entries).
Proof.
  unfold defined_values. revert a.
  induction entries as [|[key v] rest IH]; intros a; simpl.
  - rewrite app_nil_r. split; [done | lia].
  - rewrite filter_cons. destruct (is_undefined v) eqn:Hv; simpl.
    + apply IH.
    + destruct (IH (push_value v (append_open (" " +:+ sigil +:+ sanitize key +:+ "=") a)))
        as [-> ->]. simpl.
      rewrite length_app, length_alter, <- app_assoc. simpl. split; [done|].
      change (list_fmap (string * JsValue)%type JsValue snd rest) with (rest.*2).
      lia.
Qed.

Lemma build_directives_values ds a :
  values (build_directives ds a) = values a ++ ds
  ∧ length (strings (build_directives ds a)) = length (strings a) + length ds.
Proof.
  revert a. induction ds as [|d rest IH]; intros a; simpl.
  - rewrite app_nil_r. split; [done | lia].
  - destruct (IH (push_value d (append_open " " a))) as [-> ->]. simpl.
    rewrite length_app, length_alter, <- app_assoc. simpl. split; [done | lia].
Qed.

(** C4.  [div_example] compiles to the values [1, 2, fn] in that order, each
    one followed by a fragment of its own.  For every element with a non-empty
    name the opening tag pushes the defined property values in entry order,
    then the defined event handlers in entry order, then the directives in
    sequence order, and opens exactly one fragment per pushed value; the
    children and the closing tag come after. *)
Theorem values_in_declared_order :
  build (Single div_example)
  = Normal {| strings := ["<div .x="; " .y="; " @click="; "></div>"];
              values := [JNumber 1; JNumber 2; JFunction 0] |}
  ∧ ∀ c n attributes properties events directives children a,
      ∃ a1 a2,
        values a1 = values a ++ opening_values properties events directives
        ∧ length (strings a1)
          = length (strings a) + length (opening_values properties events directives)
        ∧ when_presentM children build_all a1 = Normal a2
        ∧ _build (BuildElement (Some (String c n)) attributes properties events
                    directives children) a
          = Normal (append_open ("</" +:+ sanitize (String c n) +:+ ">") a2).
Proof.
  split; [reflexivity|].
  intros c n attrs props evs dirs children a.
  unfold BuildElement. rewrite _build_object. cbn [is_template no_name].
  rewrite decide_False by done. cbv zeta.
  set (a0 := append_open _ a).
  assert (∃ a', when_presentM attrs build_attributes a0 = Normal a'
                ∧ values a' = values a
                ∧ length (strings a') = length (strings a)) as (a' & -> & Hv & Hl).
  { destruct attrs as [entries|]; simpl.
    - destruct (build_attributes_Normal entries a0) as (a' & -> & Hv & Hl).
      exists a'. subst a0. by rewrite Hv, Hl, length_strings_append_open.
    - exists a0. subst a0. by rewrite length_strings_append_open. }
  rewrite bind_Normal.
  match goal with
  | |- context [when_presentM children build_all ?b] => set (a1 := b)
  end.
  assert (∃ a2, when_presentM children build_all a1 = Normal a2) as [a2 Ha2].
  { destruct children as [cs|]; simpl; [apply build_all_Normal | eauto]. }
  exists a1, a2. rewrite Ha2, bind_Normal.
  split; [|split; [|done]].
  - subst a1. rewrite values_append_open. unfold opening_values.
    destruct dirs as [ds|], evs as [es|], props as [ps|]; simpl;
      rewrite ?(proj1 (build_directives_values _ _));
      unfold build_events, build_properties;
      rewrite ?(proj1 (build_bindings_values _ _ _)),
              ?(proj1 (build_bindings_values _ _ _));
      rewrite Hv, ?app_nil_r, <- ?app_assoc; done.
  - subst a1. rewrite length_strings_append_open. unfold opening_values.
    destruct dirs as [ds|], evs as [es|], props as [ps|]; simpl;
      rewrite ?(proj2 (build_directives_values _ _));
      unfold build_events, build_properties;
      rewrite ?(proj2 (build_bindings_values _ _ _)),
              ?(proj2 (build_bindings_values _ _ _));
      rewrite Hl, ?length_app; simpl; lia.
Qed.

(** ** Entries whose value is undefined *)

Lemma build_attributes_defined entries a :
  build_attributes (defined_attributes entries) a = build_attributes entries a.
Proof.
  unfold defined_attributes. revert a.
  induction entries as [|[key [s|]] rest IH]; intros a; [done| |].
  - rewrite filter_cons_True by (simpl; eauto). simpl. apply IH.
  - rewrite filter_cons_False by (simpl; intros [? ?]; done). simpl. apply IH.
Qed.

Lemma build_bindings_defined sigil entries a :
  build_bindings sigil (defined_entries entries) a = build_bindings sigil entries a.
Proof.
  unfold defined_entries. revert a.
  induction entries as [|[key v] rest IH]; intros a; [done|].
  destruct (is_undefined v) eqn:Hv.
  - rewrite filter_cons_False by (simpl; congruence). simpl. rewrite Hv. apply IH.
  - rewrite filter_cons_True by done. simpl. rewrite Hv. apply IH.
Qed.

(** C5.  An attribute, property or event entry whose value is [undefined] is
    skipped: an element compiles to the same result as the element without
    its undefined entries, so such an entry adds no text and no value.  Every
    other entry is emitted, whatever its value: an attribute with any defined
    value (the empty string, [0] and [false] too) adds its text; a property
    and an event entry with any value that is not [undefined] ([''], [0],
    [false], ...) adds its text, pushes the value and opens a fragment.
    [undefined_example] compiles to the one attribute [a="1"] and no value. *)
Theorem undefined_entries_skipped :
  build (Single undefined_example)
  = Normal {| strings := ["<div a=" +:+ dq +:+ "1" +:+ dq +:+ "></div>"];
              values := [] |}
  ∧ build (Single falsy_example)
    = Normal {| strings := ["<div e=" +:+ dq +:+ dq
                             +:+ " z=" +:+ dq +:+ "0" +:+ dq
                             +:+ " f=" +:+ dq +:+ "false" +:+ dq +:+ " .s=";
                            " .z="; " .f="; "></div>"];
                values := [JString ""; JNumber 0; JBool false] |}
  ∧ (∀ name attributes properties events directives children a,
       _build (BuildElement name attributes properties events directives children) a
       = _build (BuildElement name (defined_attributes <$> attributes)
                   (defined_entries <$> properties) (defined_entries <$> events)
                   directives children) a)
  ∧ (∀ key rest a, build_attributes ((key, None) :: rest) a = build_attributes rest a)
  ∧ (∀ key rest a, build_properties ((key, JUndefined) :: rest) a = build_properties rest a)
  ∧ (∀ key rest a, build_events ((key, JUndefined) :: rest) a = build_events rest a)
  ∧ build (Single falsy_events_example)
    = Normal {| strings := ["<div @a="; " @b="; " @c="; "></div>"];
                values := [JString ""; JNumber 0; JBool false] |}
  ∧ (∀ key value rest a,
       build_attributes ((key, Some value) :: rest) a
       = build_attributes rest
           (append_open
              (" " +:+ sanitize key +:+ "=" +:+ dq
               +:+ escape_attribute (attribute_text value) +:+ dq) a))
  ∧ (∀ key value rest a,
       is_undefined value = false →
       build_properties ((key, value) :: rest) a
       = build_properties rest
           (push_value value (append_open (" ." +:+ sanitize key +:+ "=") a)))
  ∧ (∀ key value rest a,
       is_undefined value = false →
       build_events ((key, value) :: rest) a
       = build_events rest
           (push_value value (append_open (" @" +:+ sanitize key +:+ "=") a))).
Proof.
  split; [reflexivity|]. split; [reflexivity|].
  split; [|split; [done|]; split; [done|]; split; [done|]; split; [reflexivity|];
           split; [done|];
           split; intros key value rest a Hv;
             unfold build_properties, build_events; simpl; by rewrite Hv].
  intros name attrs props evs dirs children a.
  unfold BuildElement. rewrite !_build_object. cbn [is_template].
  destruct (no_name name); [done|]. cbv zeta.
  assert (∀ b, when_presentM (defined_attributes <$> attrs) build_attributes b
               = when_presentM attrs build_attributes b) as ->.
  { intros b. destruct attrs; simpl; [apply build_attributes_defined | done]. }
  assert (∀ sigil field b,
            when_present (defined_entries <$> field) (build_bindings sigil) b
            = when_present field (build_bindings sigil) b) as Hb.
  { intros sigil field b.
    destruct field; simpl; [apply build_bindings_defined | done]. }
  unfold build_properties, build_events.
  destruct (when_presentM attrs build_attributes _) as [a1|err]; [|done].
  rewrite !bind_Normal. by rewrite !Hb.
Qed.

Lemma undefined_entries_skipped_witness :
  is_undefined (JBool false) = false
  ∧ build_events [("change", JBool false)] {| strings := ["<input"]; values := [] |}
    = build_events []
        (push_value (JBool false)
           (append_open (" @" +:+ sanitize "change" +:+ "=")
              {| strings := ["<input"]; values := [] |})).
Proof.
  split; [reflexivity|].
  apply (proj2 (proj2 (proj2 (proj2 (proj2 (proj2 (proj2 (proj2 (proj2
           undefined_entries_skipped))))))))).
  reflexivity.
Defined.

(** ** Elements without a name *)

(** C6.  A nameless element whose only child is [child] compiles exactly as
    [child] does, on any accumulators; in particular wrapping [span_example]
    in a nameless element changes neither the fragments nor the values. *)
Theorem fragment_identity :
  (∀ child a,
     _build (BuildElement None None None None None (Some [child])) a
     = _build child a)
  ∧ build (Single (BuildElement None None None None None (Some [span_example])))
    = build (Single span_example)
  ∧ build (Single span_example)
    = Normal {| strings := ["<span>x</span>"]; values := [] |}.
Proof.
  split; [|split; reflexivity].
  intros child a. unfold BuildElement. rewrite _build_object. simpl.
  apply bind_ret.
Qed.

(** C7.  For an element without a name, the attributes, properties, events
    and directives are ignored: the element compiles as its children do, one
    after the other on the same accumulators, whatever those four fields
    hold; without children the accumulators are returned as they were. *)
Theorem nameless_fields_ignored :
  (∀ attributes properties events directives children a,
     _build (BuildElement None attributes properties events directives children) a
     = build_all (default [] children) a)
  ∧ (∀ attributes properties events directives a,
       _build (BuildElement None attributes properties events directives None) a
       = Normal a)
  ∧ build (Single nameless_example)
    = Normal {| strings := ["t"]; values := [] |}.
Proof.
  split; [|split; [|reflexivity]].
  - intros attrs props evs dirs children a.
    unfold BuildElement. rewrite _build_object. by destruct children.
  - intros attrs props evs dirs a. unfold BuildElement. by rewrite _build_object.
Qed.

(** ** Precompiled templates *)

(** C8.  An object that has both a [strings] and a [values] field, whatever
    they hold and whatever other fields the object has (a name, children,
    ...), is pushed as the next value, and an empty fragment is opened after
    it; no text is added to the fragments there were.  An object that lacks
    one of the two fields is not treated so: it is read as an element. *)
Theorem template_by_fields :
  (∀ s v name attributes properties events directives children a,
     let o := MkObject (Some s) (Some v) name attributes properties events
                directives children in
     _build (EObject o) a
     = Normal {| strings := strings a ++ [""];
                 values := values a ++ [JObject o] |})
  ∧ (∀ v a, _build (EObject (MkObject None (Some v) None None None None None None)) a
            = Normal a)
  ∧ (∀ s a, _build (EObject (MkObject (Some s) None None None None None None None)) a
            = Normal a)
  ∧ build (Many [text_only "p" [EObject (TemplateResult ["<b>"; "</b>"] [JNumber 3])]])
    = Normal {| strings := ["<p>"; "</p>"];
                values := [JObject (TemplateResult ["<b>"; "</b>"] [JNumber 3])] |}.
Proof. repeat split. Qed.

(** ** No exception, no validation of names *)

(** C9, as the spec states it: the empty string is a name that sanitizes to
    the empty string, and [{name: '', children: ['x']}] gets no markup at all;
    [!element.name] sends it down the branch of nameless elements. *)
Lemma empty_name_no_markup :
  sanitize "" = ""
  ∧ build (Single (text_only "" [EString "x"]))
    = Normal {| strings := ["x"]; values := [] |}
  ∧ build (Single (text_only "" [EString "x"]))
    ≠ Normal {| strings := ["<>x</>"]; values := [] |}.
Proof. split; [done|]. split; [reflexivity | discriminate]. Qed.

(** C9, amended.  [build] and [_build] return on every input and never throw.
    No name is rejected: a non-empty name that sanitizes to the empty string
    still gets its markup, [<] and [>] before its compiled children and [</>]
    after them, whatever attributes, properties, events and directives the
    element has, as [{name: '!!!', children: ['x']}] shows.  The empty string
    as a name is treated as an absent name: the element compiles as the
    nameless element with the same fields does, that is as its children alone,
    with no markup. *)
Theorem no_exception_no_validation :
  (∀ elements, ∃ a, build elements = Normal a)
  ∧ (∀ element a, ∃ a', _build element a = Normal a')
  ∧ (∀ name children a,
       name ≠ "" → sanitize name = "" →
       ∃ a1, build_all children (append_open ">" (append_open "<" a)) = Normal a1
             ∧ _build (text_only name children) a = Normal (append_open "</>" a1))
  ∧ build (Single (text_only "!!!" [EString "x"]))
    = Normal {| strings := ["<>x</>"]; values := [] |}
  ∧ (∀ name attributes properties events directives children a,
       name ≠ "" → sanitize name = "" →
       ∃ a1 a2,
         when_presentM attributes build_attributes (append_open "<" a) = Normal a1
         ∧ build_all (default [] children)
             (append_open ">"
                (when_present directives build_directives
                   (when_present events build_events
                      (when_present properties build_properties a1))))
           = Normal a2
         ∧ _build (BuildElement (Some name) attributes properties events directives
                     children) a
           = Normal (append_open "</>" a2))
  ∧ (∀ attributes properties events directives children a,
       _build (BuildElement (Some "") attributes properties events directives
                 children) a
       = _build (BuildElement None attributes properties events directives children) a
       ∧ _build (BuildElement (Some "") attributes properties events directives
                   children) a
         = build_all (default [] children) a).
Proof.
  split; [|split; [|split; [|split; [reflexivity|split]]]].
  - intros [e | es]; unfold build; [apply _build_Normal | apply build_all_Normal].
  - apply _build_Normal.
  - intros name children a Hne Hs.
    destruct (build_all_Normal children (append_open ">" (append_open "<" a)))
      as [a1 Ha1].
    exists a1. split; [done|].
    unfold text_only, BuildElement. rewrite _build_object.
    cbn [is_template no_name]. rewrite decide_False by done.
    cbn [when_present when_presentM]. cbv zeta.
    change (default "" (Some name)) with name. rewrite Hs.
    change ("<" +:+ "") with "<". change ("</" +:+ "" +:+ ">") with "</>".
    rewrite !bind_Normal. by rewrite Ha1.
  - intros name attrs props evs dirs children a Hne Hs.
    assert (∃ a1, when_presentM attrs build_attributes (append_open "<" a) = Normal a1)
      as [a1 Ha1].
    { destruct attrs as [entries|]; simpl; [|by eauto].
      destruct (build_attributes_Normal entries (append_open "<" a)) as (a1 & -> & _).
      by eauto. }
    destruct (build_all_Normal (default [] children)
                (append_open ">"
                   (when_present dirs build_directives
                      (when_present evs build_events
                         (when_present props build_properties a1))))) as [a2 Ha2].
    exists a1, a2. split; [done|]. split; [done|].
    unfold BuildElement. rewrite _build_object.
    cbn [is_template no_name]. rewrite decide_False by done. cbv zeta.
    change (default "" (Some name)) with name. rewrite Hs.
    change ("<" +:+ "") with "<". change ("</" +:+ "" +:+ ">") with "</>".
    rewrite Ha1, bind_Normal.
    replace (when_presentM children build_all) with (build_all (default [] children))
      by (by destruct children).
    by rewrite Ha2.
  - intros attrs props evs dirs children a.
    unfold BuildElement. rewrite !_build_object. by destruct children.
Qed.

Lemma no_exception_no_validation_witness :
  "!?" ≠ "" ∧ sanitize "!?" = ""
  ∧ ∃ a1, build_all [EString "x"]
            (append_open ">" (append_open "<" {| strings := [""]; values := [] |}))
          = Normal a1
          ∧ _build (text_only "!?" [EString "x"]) {| strings := [""]; values := [] |}
            = Normal (append_open "</>" a1).
Proof.
  split; [discriminate|]. split; [reflexivity|].
  apply (proj1 (proj2 (proj2 no_exception_no_validation))).
  - discriminate.
  - reflexivity.
Defined.

(** ** Directives *)

(** C10.  The loop over the directives filters nothing: every directive, an
    [undefined] one too, adds one space to the open fragment, is pushed as a
    value and gets an empty fragment opened after it.  A property whose value
    is [undefined], by contrast, leaves no trace. *)
Theorem directives_not_filtered :
  (∀ ds a,
     values (build_directives ds a) = values a ++ ds
     ∧ length (strings (build_directives ds a)) = length (strings a) + length ds)
  ∧ (∀ d rest ss open vs,
       build_directives (d :: rest) {| strings := ss ++ [open]; values := vs |}
       = build_directives rest
           {| strings := ss ++ [open +:+ " "; ""]; values := vs ++ [d] |})
  ∧ (∀ ss open vs,
       build_directives [JUndefined] {| strings := ss ++ [open]; values := vs |}
       = {| strings := ss ++ [open +:+ " "; ""]; values := vs ++ [JUndefined] |})
  ∧ build (Single (BuildElement (Some "input") None None None
                     (Some [JUndefined; JDirective 0]) None))
    = Normal {| strings := ["<input "; " "; "></input>"];
                values := [JUndefined; JDirective 0] |}
  ∧ build (Single (BuildElement (Some "input") None
                     (Some [("value", JUndefined)]) None None None))
    = Normal {| strings := ["<input></input>"]; values := [] |}.
Proof.
  assert (∀ d rest ss open vs,
            build_directives (d :: rest) {| strings := ss ++ [open]; values := vs |}
            = build_directives rest
                {| strings := ss ++ [open +:+ " "; ""]; values := vs ++ [d] |}) as Hstep.
  { intros d rest ss open vs. simpl.
    rewrite append_open_snoc, push_value_snoc. by rewrite <- app_assoc. }
  split; [apply build_directives_values|].
  split; [exact Hstep|].
  split; [intros; by rewrite Hstep|].
  split; reflexivity.
Qed.

(** ** String append *)

Lemma string_app_cons c (s t : string) : String c s +:+ t = String c (s +:+ t).
Proof. reflexivity. Qed.

Lemma string_app_assoc (s t u : string) : (s +:+ t) +:+ u = s +:+ (t +:+ u).
Proof. induction s as [|c s IH]; [done|]. by rewrite !string_app_cons, IH. Qed.

Lemma string_app_nil_r (s : string) : s +:+ "" = s.
Proof. induction s as [|c s IH]; [done|]. by rewrite string_app_cons, IH. Qed.

(** ** sanitize: what it keeps and what it drops *)

(** The result of [sanitize] holds characters of [a-zA-Z0-9\-_] only, and
    [sanitize] returns its argument unchanged exactly when the argument holds
    such characters only. *)
Theorem sanitize_safe_fixed str :
  all_chars is_safe_char (sanitize str) = true
  ∧ (sanitize str = str ↔ all_chars is_safe_char str = true).
Proof.
  assert (∀ s, all_chars is_safe_char (sanitize s) = true) as Hsafe.
  { induction s as [|c rest IH]; simpl; [done|].
    destruct (is_safe_char c) eqn:Hc; simpl; [by rewrite Hc | done]. }
  split; [apply Hsafe|]. split.
  - intros <-. apply Hsafe.
  - induction str as [|c rest IH]; simpl; [done|].
    intros [Hc Hrest]%andb_true_iff. by rewrite Hc, IH.
Qed.

Lemma sanitize_safe_fixed_witness : sanitize "my-tag_1" = "my-tag_1".
Proof. apply (proj2 (proj2 (sanitize_safe_fixed "my-tag_1"))). reflexivity. Defined.

(** [sanitize] works character by character: it distributes over
    concatenation. *)
Theorem sanitize_app s t : sanitize (s +:+ t) = sanitize s +:+ sanitize t.
Proof.
  induction s as [|c s IH]; [done|].
  rewrite string_app_cons. simpl.
  destruct (is_safe_char c); [by rewrite string_app_cons, IH | done].
Qed.

(** [sanitize] only removes characters: the result is never longer than the
    argument. *)
Theorem sanitize_length str :
  (String.length (sanitize str) ≤ String.length str)%nat.
Proof.
  induction str as [|c rest IH]; simpl; [done|].
  destruct (is_safe_char c); simpl; lia.
Qed.


(** ** Escaping: plain values, concatenation, and what is lost *)

Lemma replace_all_app c r s t :
  replace_all c r (s +:+ t) = replace_all c r s +:+ replace_all c r t.
Proof.
  induction s as [|x s IH]; [done|].
  rewrite string_app_cons. simpl.
  destruct (Ascii.eqb x c); [by rewrite IH, string_app_assoc | by rewrite IH].
Qed.

(** The four replacements work character by character: escaping distributes
    over concatenation. *)
Theorem escape_attribute_app s t :
  escape_attribute (s +:+ t) = escape_attribute s +:+ escape_attribute t.
Proof. unfold escape_attribute. by rewrite !replace_all_app. Qed.

Lemma replace_all_absent c r s : occurs c s = false → replace_all c r s = s.
Proof.
  induction s as [|x s IH]; simpl; [done|].
  intros [Hx Hs]%orb_false_iff. by rewrite Hx, IH.
Qed.

(** An attribute value without less-than, greater-than, ampersand and double
    quote is embedded as it is. *)
Theorem escape_attribute_plain s :
  occurs "<" s = false → occurs ">" s = false →
  occurs "&" s = false → occurs dquote s = false →
  escape_attribute s = s.
Proof.
  intros H1 H2 H3 H4. unfold escape_attribute.
  by rewrite (replace_all_absent "<"), (replace_all_absent ">"),
    (replace_all_absent "&"), (replace_all_absent dquote).
Qed.

Lemma escape_attribute_plain_witness :
  escape_attribute "https://lit.dev" = "https://lit.dev".
Proof. apply escape_attribute_plain; reflexivity. Defined.

(** Escaping loses information: two different attribute values can have the
    same escaped text (the less-than sign and the text [&lt;] do), because
    the ampersand is replaced after the signs. *)
Theorem escape_attribute_not_injective :
  ∃ s t, s ≠ t ∧ escape_attribute s = escape_attribute t.
Proof. exists "<", "&lt;". split; [discriminate | reflexivity]. Qed.

(** ** The open fragment, and attributes as text *)

Lemma append_open_append_open s t a :
  append_open t (append_open s a) = append_open (s +:+ t) a.
Proof.
  unfold append_open; simpl. f_equal.
  rewrite length_alter, list_alter_alter_eq.
  apply list_alter_ext; [|done]. intros x _. simpl. apply string_app_assoc.
Qed.

Lemma append_open_empty a : append_open "" a = a.
Proof.
  destruct a as [ss vs]. unfold append_open; simpl. f_equal.
  apply list_alter_id. apply string_app_nil_r.
Qed.

Lemma build_attributes_text entries a :
  build_attributes entries a = Normal (append_open (attributes_text entries) a).
Proof.
  revert a. induction entries as [|[key [s|]] rest IH]; intros a; simpl.
  - by rewrite append_open_empty.
  - by rewrite IH, append_open_append_open.
  - apply IH.
Qed.

Lemma when_presentM_attributes (field : option (list (string * option AttrValue))) a :
  when_presentM field build_attributes a
  = Normal (append_open (from_option attributes_text "" field) a).
Proof.
  destruct field as [entries|]; simpl;
    [apply build_attributes_text | by rewrite append_open_empty].
Qed.

Lemma when_presentM_children children a :
  when_presentM children build_all a = build_all (default [] children) a.
Proof. by destruct children. Qed.




(** ** Compiling into accumulators that are in use *)

Lemma merge_fresh a : merge a fresh = a.
Proof.
  unfold merge, fresh; simpl. rewrite !app_nil_r.
  change (alter _ _ (strings a)) with (strings (append_open "" a)).
  rewrite append_open_empty. by destruct a.
Qed.

Lemma alter_last_app {A} (f : A → A) (l1 l2 : list A) :
  l2 ≠ [] →
  alter f (length (l1 ++ l2) - 1) (l1 ++ l2) = l1 ++ alter f (length l2 - 1) l2.
Proof.
  intros Hne. rewrite length_app.
  destruct l2 as [|x l2]; [done|]. simpl length.
  replace (length l1 + S (length l2) - 1) with (length l1 + length l2) by lia.
  rewrite alter_app_r. do 2 f_equal. lia.
Qed.

Lemma append_open_merge t a b :
  strings b ≠ [] → append_open t (merge a b) = merge a (append_open t b).
Proof.
  destruct b as [[|first rest] vs]; [done|]. intros _.
  destruct rest as [|second rest].
  - unfold merge. simpl. rewrite !app_nil_r.
    unfold append_open. simpl. f_equal.
    rewrite length_alter, list_alter_alter_eq.
    apply list_alter_ext; [|done]. intros x _. simpl. apply string_app_assoc.
  - unfold merge, append_open at 1 3. cbn [strings values].
    rewrite alter_last_app by done. cbn [length].
    replace (S (S (length rest)) - 1) with (S (length rest)) by lia.
    replace (S (length rest) - 1) with (length rest) by lia.
    done.
Qed.

Lemma push_value_merge v a b :
  strings b ≠ [] → push_value v (merge a b) = merge a (push_value v b).
Proof.
  destruct b as [[|first rest] vs]; [done|]. intros _.
  unfold merge, push_value. simpl. by rewrite <- !app_assoc.
Qed.

Lemma append_open_nonempty t b : strings b ≠ [] → strings (append_open t b) ≠ [].
Proof.
  intros Hb Hs. apply (f_equal length) in Hs.
  rewrite length_strings_append_open in Hs. by destruct (strings b).
Qed.

Lemma push_value_nonempty v b : strings (push_value v b) ≠ [].
Proof. simpl. by destruct (strings b). Qed.

Lemma build_bindings_merge sigil entries a b :
  strings b ≠ [] →
  strings (build_bindings sigil entries b) ≠ []
  ∧ build_bindings sigil entries (merge a b) = merge a (build_bindings sigil entries b).
Proof.
  revert b. induction entries as [|[key v] rest IH]; intros b Hb; simpl; [done|].
  destruct (is_undefined v); [by apply IH|].
  rewrite append_open_merge, push_value_merge by auto using append_open_nonempty.
  apply IH, push_value_nonempty.
Qed.

Lemma build_directives_merge ds a b :
  strings b ≠ [] →
  strings (build_directives ds b) ≠ []
  ∧ build_directives ds (merge a b) = merge a (build_directives ds b).
Proof.
  revert b. induction ds as [|d rest IH]; intros b Hb; simpl; [done|].
  rewrite append_open_merge, push_value_merge by auto using append_open_nonempty.
  apply IH, push_value_nonempty.
Qed.

Lemma build_all_frames cs :
  Forall frames cs →
  ∀ a b, strings b ≠ [] →
    ∃ b', build_all cs b = Normal b'
          ∧ strings b' ≠ []
          ∧ build_all cs (merge a b) = Normal (merge a b').
Proof.
  induction 1 as [|c cs Hc _ IH]; intros a b Hb; simpl; [by eauto|].
  destruct (Hc a b Hb) as (b1 & -> & Hb1 & ->). simpl.
  apply IH, Hb1.
Qed.

Lemma _build_frames element : frames element.
Proof.
  induction element as [s | ostr ovals name attrs props evs dirs children IH]
    using Element_ind; intros a b Hb.
  - exists (append_open s b).
    split; [done|]. split; [by apply append_open_nonempty|].
    change (Normal (append_open s (merge a b)) = Normal (merge a (append_open s b))).
    by rewrite append_open_merge.
  - rewrite !_build_object.
    destruct (is_template _).
    { eexists. split; [done|]. rewrite push_value_merge by done.
      auto using push_value_nonempty. }
    assert (∀ b, strings b ≠ [] →
              ∃ b', when_presentM children build_all b = Normal b'
                    ∧ strings b' ≠ []
                    ∧ when_presentM children build_all (merge a b)
                      = Normal (merge a b')) as Hch.
    { destruct children as [cs|]; simpl; [|by eauto].
      intros b0 Hb0. by apply build_all_frames. }
    destruct (no_name name); [by apply Hch|]. cbv zeta.
    assert (∀ (field : option (list (string * option AttrValue))) b,
              when_presentM field build_attributes b
              = Normal (append_open (from_option attributes_text "" field) b)) as Hattr.
    { intros [entries|] b0; simpl;
        [apply build_attributes_text | by rewrite append_open_empty]. }
    rewrite !Hattr, !bind_Normal.
    assert (∀ sigil (field : option (list (string * JsValue))) b,
              strings b ≠ [] →
              strings (when_present field (build_bindings sigil) b) ≠ []
              ∧ when_present field (build_bindings sigil) (merge a b)
                = merge a (when_present field (build_bindings sigil) b)) as Hbind.
    { intros sigil [entries|] b0 Hb0; simpl; [by apply build_bindings_merge | done]. }
    assert (∀ (field : option (list JsValue)) b,
              strings b ≠ [] →
              strings (when_present field build_directives b) ≠ []
              ∧ when_present field build_directives (merge a b)
                = merge a (when_present field build_directives b)) as Hdir.
    { intros [ds|] b0 Hb0; simpl; [by apply build_directives_merge | done]. }
    unfold build_properties, build_events.
    rewrite !append_open_merge by auto using append_open_nonempty.
    set (b1 := append_open _ (append_open _ b)).
    assert (strings b1 ≠ []) as Hb1 by (subst b1; auto using append_open_nonempty).
    destruct (Hbind "." props b1 Hb1) as [Hb2 ->].
    destruct (Hbind "@" evs _ Hb2) as [Hb3 ->].
    destruct (Hdir dirs _ Hb3) as [Hb4 ->].
    rewrite append_open_merge by done.
    destruct (Hch _ (append_open_nonempty ">" _ Hb4)) as (b5 & -> & Hb5 & ->).
    rewrite !bind_Normal. eexists. split; [done|].
    rewrite append_open_merge by done. auto using append_open_nonempty.
Qed.

(** [_build] is append-only and does not look at what is there: on
    accumulators with fragments [ss ++ [open]] and values [vs] it leaves [ss]
    and [vs] as they are, appends to [open] the first fragment that the same
    element gives on fresh accumulators, and adds the other fragments and the
    values of that compilation after them. *)
Theorem _build_frame element ss open vs :
  ∃ first rest vals,
    _build element fresh = Normal {| strings := first :: rest; values := vals |}
    ∧ _build element {| strings := ss ++ [open]; values := vs |}
      = Normal {| strings := ss ++ (open +:+ first) :: rest; values := vs ++ vals |}.
Proof.
  destruct (_build_frames element {| strings := ss ++ [open]; values := vs |} fresh)
    as ([[|first rest] vals] & Hb & Hne & Ha); [done..|].
  exists first, rest, vals. split; [done|].
  rewrite merge_fresh in Ha. rewrite Ha. unfold merge. cbn [strings values].
  rewrite append_open_snoc. cbn [strings]. by rewrite <- app_assoc.
Qed.

(** [build] of two sequences put together is the two results joined: the last
    fragment of the first is concatenated with the first fragment of the second,
    the other fragments and the values follow in order. *)
Theorem build_Many_app es1 es2 :
  ∃ ss open vs first rest vals,
    build (Many es1) = Normal {| strings := ss ++ [open]; values := vs |}
    ∧ build (Many es2) = Normal {| strings := first :: rest; values := vals |}
    ∧ build (Many (es1 ++ es2))
      = Normal {| strings := ss ++ (open +:+ first) :: rest; values := vs ++ vals |}.
Proof.
  unfold build. fold fresh.
  assert (∀ cs, Forall frames cs) as Hall.
  { intros cs. apply Forall_forall. intros e _. apply _build_frames. }
  destruct (build_all_frames es1 (Hall es1) fresh fresh) as ([ss1 vs] & H1 & Hne1 & _);
    [done|].
  destruct ss1 as [|open ss _] using rev_ind; [done|].
  destruct (build_all_frames es2 (Hall es2) {| strings := ss ++ [open]; values := vs |} fresh)
    as ([[|first rest] vals] & H2 & Hne2 & H12); [done..|].
  exists ss, open, vs, first, rest, vals.
  split; [done|]. split; [done|].
  rewrite build_all_app, H1, bind_Normal.
  rewrite merge_fresh in H12. rewrite H12. unfold merge. cbn [strings values].
  rewrite append_open_snoc. cbn [strings]. by rewrite <- app_assoc.
Qed.

(** ** Elements and their children *)

(** A named element without properties, events and directives compiles as
    the sequence: the text of its opening tag, its children, the text of its
    closing tag. *)
Theorem plain_element_as_text c n attributes children a :
  let tag := sanitize (String c n) in
  _build (BuildElement (Some (String c n)) attributes None None None children) a
  = build_all
      ([EString ("<" +:+ tag +:+ from_option attributes_text "" attributes +:+ ">")]
       ++ default [] children
       ++ [EString ("</" +:+ tag +:+ ">")]) a.
Proof.
  intros tag. unfold BuildElement. rewrite _build_object.
  cbn [is_template no_name]. rewrite decide_False by done. cbv zeta.
  cbn [when_present]. change (sanitize (default "" (Some (String c n)))) with tag.
  rewrite when_presentM_attributes, bind_Normal, when_presentM_children.
  rewrite !append_open_append_open, string_app_assoc.
  cbn [app build_all]. change (_build (EString ?s) a) with (Normal (append_open s a)).
  rewrite bind_Normal, build_all_app.
  destruct (build_all (default [] children) _) as [a'|err]; [|done].
  done.
Qed.

Lemma _build_children_ext name attributes properties events directives cs cs' a :
  (∀ b, build_all cs b = build_all cs' b) →
  _build (BuildElement name attributes properties events directives (Some cs)) a
  = _build (BuildElement name attributes properties events directives (Some cs')) a.
Proof.
  intros Hcs. unfold BuildElement. rewrite !_build_object. cbn [is_template].
  destruct (no_name name); cbn [when_presentM]; [apply Hcs|]. cbv zeta.
  destruct (when_presentM attributes build_attributes _) as [a1|err]; [|done].
  rewrite !bind_Normal. cbn [when_presentM]. by rewrite Hcs.
Qed.

Lemma build_all_middle cs1 cs cs' cs2 a :
  (∀ b, build_all cs b = build_all cs' b) →
  build_all (cs1 ++ cs ++ cs2) a = build_all (cs1 ++ cs' ++ cs2) a.
Proof.
  intros Hcs. rewrite !build_all_app.
  destruct (build_all cs1 a) as [a1|err]; [|done].
  rewrite !bind_Normal, !build_all_app. by rewrite Hcs.
Qed.

(** Two adjacent text children compile as the one child that is their
    concatenation, and an empty text child compiles as no child, anywhere in
    the children of any element. *)
Theorem text_children_merge name attributes properties events directives cs1 cs2 a :
  (∀ s t,
     _build (BuildElement name attributes properties events directives
               (Some (cs1 ++ EString s :: EString t :: cs2))) a
     = _build (BuildElement name attributes properties events directives
                 (Some (cs1 ++ EString (s +:+ t) :: cs2))) a)
  ∧ _build (BuildElement name attributes properties events directives
              (Some (cs1 ++ EString "" :: cs2))) a
    = _build (BuildElement name attributes properties events directives
                (Some (cs1 ++ cs2))) a.
Proof.
  split.
  - intros s t. apply _build_children_ext. intros b.
    apply (build_all_middle cs1 [EString s; EString t] [EString (s +:+ t)] cs2).
    intros b'. cbn [build_all].
    change (_build (EString ?x) ?y) with (Normal (append_open x y)).
    by rewrite !bind_Normal, append_open_append_open.
  - apply _build_children_ext. intros b.
    apply (build_all_middle cs1 [EString ""] [] cs2).
    intros b'. cbn [build_all].
    change (_build (EString ?x) ?y) with (Normal (append_open x y)).
    by rewrite bind_Normal, append_open_empty.
Qed.

(** A nameless child compiles as its own children put in its place, whatever
    else the nameless child holds. *)
Theorem nameless_child_flattens
    name attributes properties events directives cs1 cs2
    attributes' properties' events' directives' inner a :
  _build (BuildElement name attributes properties events directives
            (Some (cs1 ++ BuildElement None attributes' properties' events' directives' inner
                       :: cs2))) a
  = _build (BuildElement name attributes properties events directives
              (Some (cs1 ++ default [] inner ++ cs2))) a.
Proof.
  apply _build_children_ext. intros b.
  apply (build_all_middle cs1 [BuildElement None attributes' properties' events' directives' inner]
           (default [] inner) cs2).
  intros b'. cbn [build_all]. unfold BuildElement. rewrite _build_object.
  cbn [is_template no_name]. rewrite when_presentM_children. apply bind_ret.
Qed.

Lemma when_present_drop_empty {A B : Type} (field : option (list A))
    (loop : list A → B → B) b :
  (∀ b, loop [] b = b) →
  when_present (drop_empty field) loop b = when_present field loop b.
Proof. intros Hloop. destruct field as [[|x l]|]; simpl; by rewrite ?Hloop. Qed.

Lemma when_presentM_drop_empty {A B : Type} (field : option (list A))
    (loop : list A → B → Completion B) b :
  (∀ b, loop [] b = Normal b) →
  when_presentM (drop_empty field) loop b = when_presentM field loop b.
Proof. intros Hloop. destruct field as [[|x l]|]; simpl; by rewrite ?Hloop. Qed.

(** An empty [attributes], [properties] or [events] object and an empty
    [directives] or [children] array compile as the absent field does. *)
Theorem empty_fields_as_absent name attributes properties events directives children a :
  _build (BuildElement name (drop_empty attributes) (drop_empty properties)
            (drop_empty events) (drop_empty directives) (drop_empty children)) a
  = _build (BuildElement name attributes properties events directives children) a.
Proof.
  unfold BuildElement. rewrite !_build_object. cbn [is_template].
  destruct (no_name name); [by apply when_presentM_drop_empty|]. cbv zeta.
  rewrite when_presentM_drop_empty by done.
  destruct (when_presentM attributes build_attributes _) as [a1|err]; [|done].
  rewrite !bind_Normal. unfold build_properties, build_events.
  rewrite !when_present_drop_empty by done.
  by rewrite when_presentM_drop_empty.
Qed.

(** Two non-empty names with the same sanitized form compile to the same
    result: the characters that [sanitize] drops leave no trace. *)
Theorem name_through_sanitize n1 n2 attributes properties events directives children a :
  n1 ≠ "" → n2 ≠ "" → sanitize n1 = sanitize n2 →
  _build (BuildElement (Some n1) attributes properties events directives children) a
  = _build (BuildElement (Some n2) attributes properties events directives children) a.
Proof.
  intros H1 H2 Hs. unfold BuildElement. rewrite !_build_object.
  cbn [is_template no_name]. rewrite !decide_False by done. cbv zeta.
  change (default "" (Some n1)) with n1. change (default "" (Some n2)) with n2.
  by rewrite Hs.
Qed.

Lemma name_through_sanitize_witness :
  _build (BuildElement (Some "a<b") None None None None None) fresh
  = _build (BuildElement (Some "ab") None None None None None) fresh.
Proof. apply name_through_sanitize; [discriminate | discriminate | reflexivity]. Defined.

(** ** The values, in document order *)

Lemma when_present_bindings_values sigil (field : option (list (string * JsValue))) a :
  values (when_present field (build_bindings sigil) a)
  = values a ++ defined_values (default [] field).
Proof.
  destruct field as [entries|]; simpl;
    [apply build_bindings_values | by rewrite app_nil_r].
Qed.

Lemma when_present_directives_values (field : option (list JsValue)) a :
  values (when_present field build_directives a) = values a ++ default [] field.
Proof.
  destruct field as [ds|]; simpl;
    [apply build_directives_values | by rewrite app_nil_r].
Qed.

Lemma build_all_pushes cs :
  Forall pushes cs →
  ∀ a, ∃ a', build_all cs a = Normal a'
             ∧ values a' = values a ++ flat_map pushed_values cs.
Proof.
  induction 1 as [|c cs Hc _ IH]; intros a; simpl.
  - exists a. by rewrite app_nil_r.
  - destruct (Hc a) as (a1 & -> & H1). simpl.
    destruct (IH a1) as (a2 & -> & H2).
    exists a2. by rewrite H2, H1, <- app_assoc.
Qed.

Lemma _build_pushes element : pushes element.
Proof.
  induction element as [s | ostr ovals name attrs props evs dirs children IH]
    using Element_ind; intros a.
  - exists (append_open s a). by rewrite app_nil_r.
  - rewrite _build_object. cbn [pushed_values].
    destruct (is_template _); [by eexists|].
    assert (∀ b, ∃ b', when_presentM children build_all b = Normal b'
                       ∧ values b' = values b
                                     ++ match children with
                                        | Some cs => flat_map pushed_values cs
                                        | None => []
                                        end) as Hch.
    { destruct children as [cs|]; simpl.
      - by apply build_all_pushes.
      - intros b. exists b. by rewrite app_nil_r. }
    destruct (no_name name); [apply Hch|]. cbv zeta.
    rewrite when_presentM_attributes, bind_Normal.
    match goal with
    | |- context [when_presentM children build_all ?b] => set (a1 := b)
    end.
    destruct (Hch a1) as (a2 & -> & H2). rewrite bind_Normal.
    eexists. split; [done|].
    rewrite values_append_open, H2. subst a1. rewrite values_append_open.
    unfold build_properties, build_events.
    rewrite when_present_directives_values, !when_present_bindings_values.
    rewrite !values_append_open. unfold opening_values.
    by rewrite <- !app_assoc.
Qed.

(** The values that [build] hands over are the values of the input in
    document order: for each named element the defined properties, the defined
    events and the directives of its opening tag, then the values of its
    children; a template child is one value; text gives none. *)
Theorem build_values_in_document_order elements :
  ∃ a, build elements = Normal a
       ∧ values a = match elements with
                    | Single element => pushed_values element
                    | Many es => flat_map pushed_values es
                    end.
Proof.
  destruct elements as [e | es]; unfold build.
  - destruct (_build_pushes e {| strings := [""]; values := [] |}) as (a & Ha & Hv).
    by exists a.
  - destruct (build_all_pushes es) with (a := {| strings := [""]; values := [] |})
      as (a & Ha & Hv).
    + apply Forall_forall. intros e _. apply _build_pushes.
    + by exists a.
Qed.

Lemma static_pushes_nothing element :
  static element = true → pushed_values element = [].
Proof.
  induction element as [s | ostr ovals name attrs props evs dirs children IH]
    using Element_ind; [done|].
  cbn [static pushed_values]. destruct (is_template _); [done|]. cbn [negb andb].
  intros [[[Hp He]%andb_true_iff Hd]%andb_true_iff Hc]%andb_true_iff.
  assert (match children with
          | Some cs => flat_map pushed_values cs
          | None => []
          end = []) as ->.
  { destruct children as [cs|]; [|done]. simpl in IH.
    induction cs as [|c cs IHcs]; [done|].
    apply Forall_cons in IH as [Hc1 Hcs].
    simpl in Hc. apply andb_true_iff in Hc as [Sc Scs].
    simpl. by rewrite (Hc1 Sc), (IHcs Hcs Scs). }
  destruct (no_name name); [done|]. rewrite app_nil_r.
  assert (∀ field, no_defined_entry field = true →
                   defined_values (default [] field) = []) as Hnone.
  { intros field. unfold no_defined_entry, defined_values.
    induction (default [] field) as [|[key v] rest IHr]; [done|]. simpl.
    intros [Hv Hrest]%andb_true_iff. rewrite filter_cons_False by congruence.
    by apply IHr. }
  unfold opening_values. rewrite (Hnone props Hp), (Hnone evs He).
  unfold no_item in Hd. by destruct (default [] dirs).
Qed.

(** An input tree that holds, at any depth, no template, no directive and no
    property or event entry with a value other than [undefined] compiles to
    one fragment and no value; absent, empty and undefined-only fields are all
    allowed. *)
Theorem static_one_fragment element :
  static element = true →
  ∃ text, build (Single element) = Normal {| strings := [text]; values := [] |}.
Proof.
  intros Hst. unfold build.
  destruct (_build_pushes element {| strings := [""]; values := [] |})
    as (a & Ha & Hv).
  destruct (_build_returns_balanced element {| strings := [""]; values := [] |})
    as (a' & Ha' & Hb).
  rewrite Ha in Ha'. injection Ha' as <-.
  rewrite Ha. rewrite (static_pushes_nothing element Hst) in Hv. simpl in Hv.
  specialize (Hb eq_refl). unfold balanced in Hb. rewrite Hv in Hb.
  destruct a as [[|text [|]] vs]; simpl in *; try done.
  subst vs. by exists text.
Qed.

Lemma static_one_fragment_witness :
  ∃ text, build (Single empty_fields_example)
          = Normal {| strings := [text]; values := [] |}.
Proof. apply static_one_fragment. reflexivity. Defined.

(** ** Opening and closing tag *)

Lemma starts_with_append_open p t a :
  starts_with p a → starts_with p (append_open t a).
Proof.
  intros (body & rest & Ha). unfold starts_with, append_open. cbn [strings].
  rewrite Ha. destruct rest as [|second rest].
  - exists (body +:+ t), []. simpl. by rewrite string_app_assoc.
  - exists body. cbn [length].
    replace (S (S (length rest)) - 1) with (S (length rest)) by lia.
    by eexists.
Qed.

Lemma starts_with_app p ss rest vs vs' :
  starts_with p {| strings := ss; values := vs |} →
  starts_with p {| strings := ss ++ rest; values := vs' |}.
Proof. intros (body & rest' & Ha). simpl in Ha. subst ss. by exists body, (rest' ++ rest). Qed.

Lemma starts_with_push_value p v a :
  starts_with p a → starts_with p (push_value v a).
Proof. destruct a. apply starts_with_app. Qed.

Lemma starts_with_merge p a b : starts_with p a → starts_with p (merge a b).
Proof.
  intros Ha. unfold merge. destruct (strings b) as [|first rest]; [done|].
  apply (starts_with_append_open p first) in Ha.
  destruct (append_open first a) as [ss' vs']. by apply starts_with_app with (vs := vs').
Qed.

Lemma starts_with_build_bindings p sigil entries a :
  starts_with p a → starts_with p (build_bindings sigil entries a).
Proof.
  revert a. induction entries as [|[key v] rest IH]; intros a Ha; simpl; [done|].
  destruct (is_undefined v); auto using starts_with_append_open, starts_with_push_value.
Qed.

Lemma starts_with_build_directives p ds a :
  starts_with p a → starts_with p (build_directives ds a).
Proof.
  revert a. induction ds as [|d rest IH]; intros a Ha; simpl;
    auto using starts_with_append_open, starts_with_push_value.
Qed.

Lemma starts_with_when_present {A : Type} p (field : option A) loop a :
  (∀ x b, starts_with p b → starts_with p (loop x b)) →
  starts_with p a → starts_with p (when_present field loop a).
Proof. destruct field; simpl; auto. Qed.

Lemma starts_with_build_all p cs a :
  starts_with p a →
  ∃ a', build_all cs a = Normal a' ∧ starts_with p a'.
Proof.
  intros Ha.
  destruct (build_all_frames cs) with (a := a) (b := fresh) as (b' & _ & _ & Hb);
    [apply Forall_forall; intros e _; apply _build_frames | done |].
  rewrite merge_fresh in Hb. exists (merge a b'). auto using starts_with_merge.
Qed.

(** What [build] returns for a named element begins with [<] and the
    sanitized name in its first fragment and ends with the closing tag of that
    name in its last fragment. *)
Theorem named_element_brackets c n attributes properties events directives children :
  let tag := sanitize (String c n) in
  ∃ a body rest ss last,
    build (Single (BuildElement (Some (String c n)) attributes properties events
                     directives children)) = Normal a
    ∧ strings a = ("<" +:+ tag +:+ body) :: rest
    ∧ strings a = ss ++ [last +:+ "</" +:+ tag +:+ ">"].
Proof.
  intros tag. unfold build, BuildElement. rewrite _build_object.
  cbn [is_template no_name]. rewrite decide_False by done. cbv zeta.
  change (sanitize (default "" (Some (String c n)))) with tag.
  rewrite when_presentM_attributes, bind_Normal, when_presentM_children.
  match goal with
  | |- context [build_all (default [] children) ?b] => set (a1 := b)
  end.
  assert (starts_with ("<" +:+ tag) a1) as H1.
  { subst a1. apply starts_with_append_open.
    apply starts_with_when_present; [apply starts_with_build_directives|].
    apply starts_with_when_present; [apply starts_with_build_bindings|].
    apply starts_with_when_present; [apply starts_with_build_bindings|].
    apply starts_with_append_open.
    exists "", []. simpl. by rewrite string_app_nil_r. }
  destruct (starts_with_build_all _ (default [] children) a1 H1) as (a2 & -> & H2).
  rewrite bind_Normal.
  assert (∃ ss last, strings a2 = ss ++ [last]) as (ss & last & Hss).
  { destruct H2 as (body & rest & H2). rewrite H2.
    destruct rest as [|x rest _] using rev_ind; [by exists [], ("<" +:+ tag +:+ body)|].
    by exists (("<" +:+ tag +:+ body) :: rest), x. }
  apply (starts_with_append_open _ ("</" +:+ tag +:+ ">")) in H2 as (body & rest & H3).
  rewrite string_app_assoc in H3.
  eexists _, body, rest, ss, last. split; [done|]. split; [done|].
  destruct a2 as [ss2 vs2]. simpl in Hss. subst ss2.
  by rewrite append_open_snoc.
Qed.
